(** * Setuid command wrappers: cmd-wrapper.c, rsync-wrapper.c, print-cmd-wrapper.c

    The three programs are straight-line sequences of libc calls.  Each
    [main] is embedded as a computation in a small monad that threads the
    process state (the global [gid], [errno], and the chronological list of
    libc calls made so far), reads the answers of the operating system from
    an [os] record, and can stop with an [outcome]: the process exited, its
    image was replaced by [execl], or it dereferenced a null pointer.

    [main] takes [argc] and [argv]; the third parameter [envp] that
    cmd-wrapper.c and print-cmd-wrapper.c declare is never used there (the
    environment is read through [getenv] only) and is left out. *)

From Stdlib Require Import ZArith List String Ascii Bool Lia.
Import ListNotations.

Local Open Scope string_scope.
Local Open Scope list_scope.
Local Open Scope Z_scope.

(** ** C data *)

Module C.

(** Conversion of a value to [int] (32 bits, two's complement), as in the
    assignment [gid = getgid()] of a [gid_t] to the global [int gid]. *)
Definition to_int (z : Z) : Z := (z + 2 ^ 31) mod 2 ^ 32 - 2 ^ 31.

(** [gid_t] and [uid_t] are unsigned 32-bit integers. *)
Definition is_id (z : Z) : Prop := 0 <= z < 2 ^ 32.

(** The line feed written [\n] in the C string literals. *)
Definition LF : string := String (ascii_of_nat 10) EmptyString.

(** The byte of a C string at its head; the terminating NUL when the
    string is exhausted. *)
Definition head_byte (s : string) : Z :=
  match s with
  | EmptyString => 0
  | String c _ => Z.of_N (N_of_ascii c)
  end.

Definition tail (s : string) : string :=
  match s with
  | EmptyString => EmptyString
  | String _ r => r
  end.

(** [strncmp(s1, s2, n)] on two non-null strings: compares at most [n]
    bytes as unsigned chars and stops at the first difference or at a
    NUL; the result is the difference of the two bytes. *)
Fixpoint strncmp (s1 s2 : string) (n : nat) : Z :=
  match n with
  | O => 0
  | S n' =>
      let c1 := head_byte s1 in
      let c2 := head_byte s2 in
      if c1 =? c2
      then if c1 =? 0 then 0 else strncmp (tail s1) (tail s2) n'
      else c1 - c2
  end.

(** What [printf] writes for a [%s] argument; for a null pointer glibc
    writes [(null)]. *)
Definition show_arg (a : option string) : string :=
  match a with
  | Some s => s
  | None => "(null)"
  end.

(** [printf] restricted to the one directive the programs use, [%s]. *)
Fixpoint sprintf (fmt : string) (args : list (option string)) : string :=
  match fmt with
  | EmptyString => EmptyString
  | String "%" (String "s" rest) =>
      match args with
      | a :: args' => (show_arg a ++ sprintf rest args')%string
      | [] => sprintf rest []
      end
  | String c rest => String c (sprintf rest args)
  end.

(** [getenv] over the environment, the first binding of the name. *)
Fixpoint lookup (name : string) (env : list (string * string)) : option string :=
  match env with
  | [] => None
  | (k, v) :: env' => if String.eqb k name then Some v else lookup name env'
  end.

End C.

(** ** The libc calls, the operating system and the process *)

(** A libc call with the arguments the program passed to it. *)
Inductive call : Type :=
| Getenv (name : string)
| Getgid
| Getuid
| Setegid (g : Z)
| Seteuid (u : Z)
| Setgid (g : Z)
| Setuid (u : Z)
| Printf (fmt : string) (args : list (option string))
| Strncmp (s1 : option string) (s2 : string) (n : nat)
| Execl (path : string) (argv : list string)
| Perror (s : string) (err : Z)
| Exit (status : Z).

(** What the operating system answers.  [setid_ret] is the return value of
    a privilege-changing call, given the calls made up to and including it
    (0 on success, -1 on failure); [execl_errno] is [None] when the image is
    replaced and [Some e] when [execl] fails with [errno = e]. *)
Record os : Type := {
  real_gid : Z;
  real_uid : Z;
  environ : list (string * string);
  setid_ret : list call -> Z;
  execl_errno : string -> list string -> option Z
}.

(** The process: the global [int gid] of the wrappers, [errno], and the
    calls made so far, oldest first. *)
Record proc : Type := {
  gid : Z;
  errno : Z;
  calls : list call
}.

(** How a run ends. *)
Inductive outcome : Type :=
| Exited (status : Z)
| Replaced (path : string) (argv : list string)
| Fault.

Inductive res (A : Type) : Type :=
| Val (a : A) (p : proc)
| Halt (o : outcome) (p : proc).

Arguments Val {A} a p.
Arguments Halt {A} o p.

Definition M (A : Type) : Type := os -> proc -> res A.

Definition ret {A} (a : A) : M A := fun _ p => Val a p.

Definition bind {A B} (m : M A) (k : A -> M B) : M B :=
  fun w p =>
    match m w p with
    | Val a p' => k a w p'
    | Halt o p' => Halt o p'
    end.

Declare Scope proc_scope.
Delimit Scope proc_scope with proc.

Notation "x <- c1 ;; c2" := (bind c1 (fun x => c2))
  (at level 100, c1 at next level, right associativity) : proc_scope.
Notation "c1 ;; c2" := (bind c1 (fun _ => c2))
  (at level 100, right associativity) : proc_scope.

Local Open Scope proc_scope.

(** [if (c) { body }] where the statement has no [else]. *)
Definition when (c : bool) (body : M unit) : M unit :=
  if c then body else ret tt.

Module Libc.

Definition emit (c : call) : M unit :=
  fun _ p => Val tt {| gid := gid p; errno := errno p; calls := calls p ++ [c] |}.

Definition getenv (name : string) : M (option string) :=
  emit (Getenv name) ;;
  fun w p => Val (C.lookup name (environ w)) p.

Definition getgid : M Z :=
  emit Getgid ;; fun w p => Val (real_gid w) p.

Definition getuid : M Z :=
  emit Getuid ;; fun w p => Val (real_uid w) p.

Definition setid (c : call) : M Z :=
  emit c ;; fun w p => Val (setid_ret w (calls p)) p.

Definition setegid (g : Z) : M Z := setid (Setegid g).
Definition seteuid (u : Z) : M Z := setid (Seteuid u).
Definition setgid (g : Z) : M Z := setid (Setgid g).
Definition setuid (u : Z) : M Z := setid (Setuid u).

Definition printf (fmt : string) (args : list (option string)) : M unit :=
  emit (Printf fmt args).

(** [strncmp] reads through its first argument: a null pointer there
    ends the run with [Fault]. *)
Definition strncmp (s1 : option string) (s2 : string) (n : nat) : M Z :=
  emit (Strncmp s1 s2 n) ;;
  fun _ p =>
    match s1 with
    | Some s => Val (C.strncmp s s2 n) p
    | None => Halt Fault p
    end.

(** [execl] returns only when it fails: -1, with [errno] set. *)
Definition execl (path : string) (argv : list string) : M Z :=
  emit (Execl path argv) ;;
  fun w p =>
    match execl_errno w path argv with
    | None => Halt (Replaced path argv) p
    | Some e => Val (-1) {| gid := gid p; errno := e; calls := calls p |}
    end.

Definition perror (s : string) : M unit :=
  fun w p => emit (Perror s (errno p)) w p.

(** [exit] never returns; the parent sees [status & 0377]. *)
Definition exit (status : Z) : M unit :=
  emit (Exit status) ;;
  fun _ p => Halt (Exited (Z.land status 255)) p.

(** Assignment to, and read of, the global [int gid]. *)
Definition set_gid (v : Z) : M unit :=
  fun _ p => Val tt {| gid := v; errno := errno p; calls := calls p |}.

Definition get_gid : M Z := fun _ p => Val (gid p) p.

End Libc.

(** A process starts with its globals zeroed and no call made. *)
Definition start : proc := {| gid := 0; errno := 0; calls := [] |}.

Definition run {A} (m : M A) (w : os) : res A := m w start.

Definition outcome_of {A} (r : res A) : option outcome :=
  match r with
  | Val _ _ => None
  | Halt o _ => Some o
  end.

Definition proc_of {A} (r : res A) : proc :=
  match r with
  | Val _ p => p
  | Halt _ p => p
  end.

Definition trace {A} (r : res A) : list call := calls (proc_of r).

(** ** cmd-wrapper.c *)

Module CmdWrapper.
Import Libc.

Definition main (argc : Z) (argv : list string) : M unit :=
  origcmd <- getenv "SSH_ORIGINAL_COMMAND" ;;
  g <- getgid ;;
  set_gid (C.to_int g) ;;
  g' <- getgid ;;
  setegid g' ;;
  u <- getuid ;;
  seteuid u ;;
  gid <- get_gid ;;
  when (negb (gid =? 502))
    (printf ("User Not Authorized! Exiting..." ++ C.LF)%string [] ;;
     exit 1) ;;
  when (negb (argc =? 1))
    (printf ("Usage: cmd-wrapper [pre|post]" ++ C.LF)%string [] ;;
     exit 1) ;;
  setegid 0 ;;
  seteuid 0 ;;
  setgid 0 ;;
  setuid 0 ;;
  c <- strncmp origcmd "pre" 3 ;;
  (if c =? 0 then
     r <- execl "/root/bin/rsnapshot-pre.sh" ["rsnapshot-pre.sh"] ;;
     when (r <? 0) (perror "Execl:")
   else
     c' <- strncmp origcmd "post" 4 ;;
     if c' =? 0 then
       r <- execl "/root/bin/rsnapshot-post.sh" ["rsnapshot-post.sh"] ;;
       when (r <? 0) (perror "Execl:")
     else
       printf ("ERROR: Invalid command: %s" ++ C.LF)%string [origcmd] ;;
       printf ("Usage: COMMAND [pre|post]" ++ C.LF)%string [] ;;
       exit 1) ;;
  exit 0.

End CmdWrapper.

(** ** rsync-wrapper.c *)

Module RsyncWrapper.
Import Libc.

Definition rsync_argv : list string :=
  ["rsync"; "--server"; "--sender"; "-vlogDtprRe.iLsf"; "--numeric-ids"; "."; "/"].

Definition main (argc : Z) (argv : list string) : M unit :=
  g <- getgid ;;
  set_gid (C.to_int g) ;;
  g' <- getgid ;;
  setegid g' ;;
  u <- getuid ;;
  seteuid u ;;
  gid <- get_gid ;;
  when (negb (gid =? 502))
    (printf ("User Not Authorized! Exiting..." ++ C.LF)%string [] ;;
     exit 1) ;;
  when (negb (argc =? 1))
    (printf ("Usage: rsync-wrapper" ++ C.LF)%string [] ;;
     exit 1) ;;
  setegid 0 ;;
  seteuid 0 ;;
  setgid 0 ;;
  setuid 0 ;;
  r <- execl "/usr/bin/rsync" rsync_argv ;;
  when (r <? 0) (perror "Execl:") ;;
  exit 0.

End RsyncWrapper.

(** ** print-cmd-wrapper.c *)

Module PrintCmdWrapper.
Import Libc.

Definition main (argc : Z) (argv : list string) : M unit :=
  origcmd <- getenv "SSH_ORIGINAL_COMMAND" ;;
  printf ("Original Command:%s" ++ C.LF)%string [origcmd] ;;
  exit 0.

End PrintCmdWrapper.

(** ** Reading a trace *)

(** What the calls so far have written on standard output. *)
Fixpoint stdout (tr : list call) : string :=
  match tr with
  | [] => EmptyString
  | Printf fmt args :: tr' => (C.sprintf fmt args ++ stdout tr')%string
  | _ :: tr' => stdout tr'
  end.

Definition is_setid (c : call) : bool :=
  match c with
  | Setegid _ | Seteuid _ | Setgid _ | Setuid _ => true
  | _ => false
  end.

Definition is_strncmp (c : call) : bool :=
  match c with
  | Strncmp _ _ _ => true
  | _ => false
  end.

Definition is_execl (c : call) : bool :=
  match c with
  | Execl _ _ => true
  | _ => false
  end.

(** The privilege-changing calls of a trace, in order. *)
Definition setid_calls (tr : list call) : list call := filter is_setid tr.

(** The prefix comparisons of a trace, in order. *)
Definition strncmp_calls (tr : list call) : list call := filter is_strncmp tr.

(** The image replacements attempted in a trace, in order. *)
Definition execl_calls (tr : list call) : list call := filter is_execl tr.

(** The four calls of the re-escalation phase. *)
Definition reescalation : list call :=
  [Setegid 0; Seteuid 0; Setgid 0; Setuid 0].

(** The calls of the privilege drop, for real group [g] and real user [u]. *)
Definition drop (g u : Z) : list call :=
  [Getgid; Getgid; Setegid g; Getuid; Seteuid u].

(** ** Vocabulary of the statements *)

(** The value [getenv] returns for the forced-command variable. *)
Definition command (w : os) : option string :=
  C.lookup "SSH_ORIGINAL_COMMAND" (environ w).

(** The calls cmd-wrapper makes before its authorization test. *)
Definition prologue (w : os) : list call :=
  Getenv "SSH_ORIGINAL_COMMAND" :: drop (real_gid w) (real_uid w).

Definition msg_unauthorized : string := "User Not Authorized! Exiting..." ++ C.LF.
Definition msg_usage_cmd : string := "Usage: cmd-wrapper [pre|post]" ++ C.LF.
Definition msg_usage_rsync : string := "Usage: rsync-wrapper" ++ C.LF.
Definition msg_invalid : string := "ERROR: Invalid command: %s" ++ C.LF.
Definition msg_usage_command : string := "Usage: COMMAND [pre|post]" ++ C.LF.
Definition msg_original : string := "Original Command:%s" ++ C.LF.

Definition pre_script : string := "/root/bin/rsnapshot-pre.sh".
Definition post_script : string := "/root/bin/rsnapshot-post.sh".
Definition rsync_path : string := "/usr/bin/rsync".

(** The same operating system with other return values for the
    privilege-changing calls, and with another environment. *)
Definition with_setid_ret (w : os) (f : list call -> Z) : os :=
  {| real_gid := real_gid w;
     real_uid := real_uid w;
     environ := environ w;
     setid_ret := f;
     execl_errno := execl_errno w |}.

Definition with_environ (w : os) (env : list (string * string)) : os :=
  {| real_gid := real_gid w;
     real_uid := real_uid w;
     environ := env;
     setid_ret := setid_ret w;
     execl_errno := execl_errno w |}.

(** ** Sample operating systems *)

Definition all_succeed : list call -> Z := fun _ => 0.
Definition all_fail : list call -> Z := fun _ => -1.

Definition mk_os (g : Z) (cmd : option string) (ex : option Z) : os :=
  {| real_gid := g;
     real_uid := 1001;
     environ :=
       match cmd with
       | Some s => [("HOME", "/home/backup"); ("SSH_ORIGINAL_COMMAND", s)]
       | None => [("HOME", "/home/backup")]
       end;
     setid_ret := all_succeed;
     execl_errno := fun _ _ => ex |}.

(** [errno] value for a missing executable. *)
Definition ENOENT : Z := 2.

(** An authorized caller with an unrecognised command, whose [execl]
    would succeed. *)
Definition os_foo : os := mk_os 502 (Some "foo") None.

(** Authorized callers whose [execl] fails because the program is missing. *)
Definition os_pre_enoent : os := mk_os 502 (Some "pre") (Some ENOENT).
Definition os_post_enoent : os := mk_os 502 (Some "post") (Some ENOENT).

(** An authorized caller without SSH_ORIGINAL_COMMAND in its environment. *)
Definition os_absent : os := mk_os 502 None None.

(** An authorized caller asking for [posterior]. *)
Definition os_posterior : os := mk_os 502 (Some "posterior") None.

(** An authorized caller asking for [preempt], and one whose command is a
    shell command line and whose [execl] fails. *)
Definition os_preempt : os := mk_os 502 (Some "preempt") None.
Definition os_shell : os := mk_os 502 (Some "rm -rf /") (Some ENOENT).

(** A caller in another group. *)
Definition os_999 : os := mk_os 999 (Some "pre") None.

(** The same operating system seen by a caller with another real user id. *)
Definition with_real_uid (w : os) (u : Z) : os :=
  {| real_gid := real_gid w;
     real_uid := u;
     environ := environ w;
     setid_ret := setid_ret w;
     execl_errno := execl_errno w |}.

(** The command begins with one of the two selectors of cmd-wrapper. *)
Definition recognised (s : string) : bool :=
  String.prefix "pre" s || String.prefix "post" s.

(** An environment that sets more than the forced command, and a caller
    whose command is the empty string. *)
Definition env_crowded : list (string * string) :=
  [("LD_PRELOAD", "/tmp/evil.so"); ("SSH_ORIGINAL_COMMAND", "preempt");
   ("PATH", "/tmp")].
Definition os_empty : os := mk_os 502 (Some "") None.
Definition os_postfix : os := mk_os 502 (Some "postfix reload") None.

(** The calls of a trace that come before its first [execl]. *)
Fixpoint until_execl (tr : list call) : list call :=
  match tr with
  | [] => []
  | c :: tr' => if is_execl c then [] else c :: until_execl tr'
  end.

(** A literal without NUL bytes. *)
Fixpoint nul_free (lit : string) : Prop :=
  match lit with
  | EmptyString => True
  | String c r => Z.of_N (N_of_ascii c) <> 0 /\ nul_free r
  end.

(** ** Facts about the C data *)

Section CFacts.

Lemma to_int_small (z : Z) : 0 <= z < 2 ^ 31 -> C.to_int z = z.
Proof.
  unfold C.to_int. change (2 ^ 31) with 2147483648.
  change (2 ^ 32) with 4294967296. intros Hz.
  rewrite Z.mod_small by lia. lia.
Qed.

Lemma to_int_large (z : Z) : 2 ^ 31 <= z < 2 ^ 32 -> C.to_int z = z - 2 ^ 32.
Proof.
  unfold C.to_int. change (2 ^ 31) with 2147483648.
  change (2 ^ 32) with 4294967296. intros Hz.
  replace (z + 2147483648) with (z - 2147483648 + 1 * 4294967296) by lia.
  rewrite Z.mod_add by lia. rewrite Z.mod_small by lia. lia.
Qed.

(** On group ids the test [gid != 502] on the converted value is the test
    on the id itself. *)
Lemma to_int_502 (g : Z) : C.is_id g -> (C.to_int g = 502 <-> g = 502).
Proof.
  unfold C.is_id. intros Hg.
  destruct (Z_lt_ge_dec g (2 ^ 31)) as [Hlt | Hge].
  - rewrite to_int_small by lia. reflexivity.
  - rewrite to_int_large by lia.
    change (2 ^ 31) with 2147483648 in *. change (2 ^ 32) with 4294967296 in *.
    lia.
Qed.

(** The authorized group passes the test of the wrappers. *)
Lemma authorized_gid (w : os) : real_gid w = 502 -> C.to_int (real_gid w) = 502.
Proof. intros ->. reflexivity. Qed.

Lemma head_byte_cons (c : ascii) (s : string) :
  C.head_byte s = Z.of_N (N_of_ascii c) ->
  Z.of_N (N_of_ascii c) <> 0 ->
  exists r, s = String c r.
Proof.
  destruct s as [| d r]; simpl; intros Heq Hnz.
  - congruence.
  - exists r. f_equal.
    apply N2Z.inj in Heq.
    rewrite <- (ascii_N_embedding d), <- (ascii_N_embedding c).
    now rewrite Heq.
Qed.

(** One step of [strncmp] against a literal whose next byte is not NUL. *)
Lemma strncmp_step (c : ascii) (lit s : string) (n : nat) :
  Z.of_N (N_of_ascii c) <> 0 ->
  (C.strncmp s (String c lit) (S n) = 0 <->
   exists r, s = String c r /\ C.strncmp r lit n = 0).
Proof.
  intros Hnz. split.
  - cbn [C.strncmp]. cbv zeta.
    change (C.head_byte (String c lit)) with (Z.of_N (N_of_ascii c)).
    destruct (Z.eqb_spec (C.head_byte s) (Z.of_N (N_of_ascii c))) as [Heq | Hne].
    + destruct (head_byte_cons c s Heq Hnz) as [r ->].
      destruct (Z.eqb_spec (C.head_byte (String c r)) 0) as [Hz | _].
      * simpl in Hz. contradiction.
      * simpl. intros H. now exists r.
    + intros H. lia.
  - intros [r [-> Hr]].
    cbn [C.strncmp]. cbv zeta.
    change (C.head_byte (String c r)) with (Z.of_N (N_of_ascii c)).
    change (C.head_byte (String c lit)) with (Z.of_N (N_of_ascii c)).
    rewrite Z.eqb_refl.
    destruct (Z.eqb_spec (Z.of_N (N_of_ascii c)) 0) as [Hz | _]; [contradiction |].
    exact Hr.
Qed.

(** Comparing against a whole literal is the prefix test. *)
Lemma strncmp_prefix (lit : string) :
  nul_free lit ->
  forall s, C.strncmp s lit (String.length lit) = 0 <-> exists r, s = (lit ++ r)%string.
Proof.
  induction lit as [| c lit IH]; intros Hnf s.
  - simpl. split; [intros _; now exists s | reflexivity].
  - destruct Hnf as [Hc Hnf]. simpl String.length.
    rewrite strncmp_step by exact Hc. split.
    + intros [r [-> Hr]]. apply (IH Hnf) in Hr. destruct Hr as [r' ->].
      now exists r'.
    + intros [r ->]. exists (lit ++ r)%string. split; [reflexivity |].
      apply (IH Hnf). now exists r.
Qed.

Lemma strncmp_pre (s : string) :
  C.strncmp s "pre" 3 = 0 <-> exists r, s = ("pre" ++ r)%string.
Proof.
  apply (strncmp_prefix "pre"). simpl. repeat split; discriminate.
Qed.

Lemma strncmp_post (s : string) :
  C.strncmp s "post" 4 = 0 <-> exists r, s = ("post" ++ r)%string.
Proof.
  apply (strncmp_prefix "post"). simpl. repeat split; discriminate.
Qed.

End CFacts.

(** ** The runs of cmd-wrapper, branch by branch *)

Ltac unfold_main :=
  unfold run, CmdWrapper.main, RsyncWrapper.main, PrintCmdWrapper.main;
  cbv [bind when ret start gid errno calls app
       Libc.emit Libc.getenv Libc.getgid Libc.getuid Libc.setid
       Libc.setegid Libc.seteuid Libc.setgid Libc.setuid Libc.printf
       Libc.strncmp Libc.execl Libc.perror Libc.exit
       Libc.set_gid Libc.get_gid].

Ltac bool_hyps :=
  repeat match goal with
    | H : _ <> _ :> Z |- _ => apply Z.eqb_neq in H
    | H : _ = _ :> Z |- _ => apply Z.eqb_eq in H
    end.

Section CmdWrapperRuns.

Variables (w : os) (argc : Z) (argv : list string).

Lemma cmd_unauthorized :
  C.to_int (real_gid w) <> 502 ->
  run (CmdWrapper.main argc argv) w
  = Halt (Exited 1)
        {| gid := C.to_int (real_gid w); errno := 0;
           calls := prologue w ++ [Printf msg_unauthorized []; Exit 1] |}.
Proof.
  intros Hg. bool_hyps. unfold_main. rewrite Hg. reflexivity.
Qed.

Lemma cmd_usage :
  C.to_int (real_gid w) = 502 -> argc <> 1 ->
  run (CmdWrapper.main argc argv) w
  = Halt (Exited 1)
        {| gid := 502; errno := 0;
           calls := prologue w ++ [Printf msg_usage_cmd []; Exit 1] |}.
Proof.
  intros Hg Ha. unfold_main. rewrite Hg. bool_hyps. rewrite Ha.
  reflexivity.
Qed.

Lemma cmd_null :
  C.to_int (real_gid w) = 502 -> argc = 1 -> command w = None ->
  run (CmdWrapper.main argc argv) w
  = Halt Fault
        {| gid := 502; errno := 0;
           calls := prologue w ++ reescalation ++ [Strncmp None "pre" 3] |}.
Proof.
  intros Hg Ha Hc. unfold_main. fold (command w).
  rewrite Hg, Hc. subst argc. reflexivity.
Qed.

Lemma cmd_pre (s : string) :
  C.to_int (real_gid w) = 502 -> argc = 1 -> command w = Some s ->
  C.strncmp s "pre" 3 = 0 ->
  run (CmdWrapper.main argc argv) w
  = match execl_errno w pre_script ["rsnapshot-pre.sh"] with
      | None =>
          Halt (Replaced pre_script ["rsnapshot-pre.sh"])
            {| gid := 502; errno := 0;
               calls := prologue w ++ reescalation
                        ++ [Strncmp (Some s) "pre" 3;
                            Execl pre_script ["rsnapshot-pre.sh"]] |}
      | Some e =>
          Halt (Exited 0)
            {| gid := 502; errno := e;
               calls := prologue w ++ reescalation
                        ++ [Strncmp (Some s) "pre" 3;
                            Execl pre_script ["rsnapshot-pre.sh"];
                            Perror "Execl:" e; Exit 0] |}
      end.
Proof.
  intros Hg Ha Hc Hp. unfold_main. fold (command w).
  rewrite Hg, Hc, Hp. subst argc. unfold pre_script. cbn.
  destruct (execl_errno w _ _); reflexivity.
Qed.

Lemma cmd_post (s : string) :
  C.to_int (real_gid w) = 502 -> argc = 1 -> command w = Some s ->
  C.strncmp s "pre" 3 <> 0 -> C.strncmp s "post" 4 = 0 ->
  run (CmdWrapper.main argc argv) w
  = match execl_errno w post_script ["rsnapshot-post.sh"] with
      | None =>
          Halt (Replaced post_script ["rsnapshot-post.sh"])
            {| gid := 502; errno := 0;
               calls := prologue w ++ reescalation
                        ++ [Strncmp (Some s) "pre" 3; Strncmp (Some s) "post" 4;
                            Execl post_script ["rsnapshot-post.sh"]] |}
      | Some e =>
          Halt (Exited 0)
            {| gid := 502; errno := e;
               calls := prologue w ++ reescalation
                        ++ [Strncmp (Some s) "pre" 3; Strncmp (Some s) "post" 4;
                            Execl post_script ["rsnapshot-post.sh"];
                            Perror "Execl:" e; Exit 0] |}
      end.
Proof.
  intros Hg Ha Hc Hp Hq. unfold_main. fold (command w).
  apply Z.eqb_neq in Hp.
  rewrite Hg, Hc, Hp, Hq. subst argc. unfold post_script. cbn.
  destruct (execl_errno w _ _); reflexivity.
Qed.

Lemma cmd_invalid (s : string) :
  C.to_int (real_gid w) = 502 -> argc = 1 -> command w = Some s ->
  C.strncmp s "pre" 3 <> 0 -> C.strncmp s "post" 4 <> 0 ->
  run (CmdWrapper.main argc argv) w
  = Halt (Exited 1)
        {| gid := 502; errno := 0;
           calls := prologue w ++ reescalation
                    ++ [Strncmp (Some s) "pre" 3; Strncmp (Some s) "post" 4;
                        Printf msg_invalid [Some s];
                        Printf msg_usage_command []; Exit 1] |}.
Proof.
  intros Hg Ha Hc Hp Hq. unfold_main. fold (command w).
  apply Z.eqb_neq in Hp. apply Z.eqb_neq in Hq.
  rewrite Hg, Hc, Hp, Hq. subst argc. reflexivity.
Qed.

(** Every run ends: the process exits, is replaced, or faults. *)
Lemma cmd_halts : exists o p, run (CmdWrapper.main argc argv) w = Halt o p.
Proof.
  destruct (Z.eq_dec (C.to_int (real_gid w)) 502) as [Hg | Hg].
  2: { rewrite (cmd_unauthorized Hg). eauto. }
  destruct (Z.eq_dec argc 1) as [Ha | Ha].
  2: { rewrite (cmd_usage Hg Ha). eauto. }
  destruct (command w) as [s |] eqn:Hc.
  2: { rewrite (cmd_null Hg Ha Hc). eauto. }
  destruct (Z.eq_dec (C.strncmp s "pre" 3) 0) as [Hp | Hp].
  { rewrite (cmd_pre s Hg Ha Hc Hp). destruct (execl_errno w _ _); eauto. }
  destruct (Z.eq_dec (C.strncmp s "post" 4) 0) as [Hq | Hq].
  { rewrite (cmd_post s Hg Ha Hc Hp Hq). destruct (execl_errno w _ _); eauto. }
  rewrite (cmd_invalid s Hg Ha Hc Hp Hq). eauto.
Qed.

End CmdWrapperRuns.

(** ** The runs of rsync-wrapper and of print-cmd-wrapper *)

Section RsyncWrapperRuns.

Variables (w : os) (argc : Z) (argv : list string).

Lemma rsync_unauthorized :
  C.to_int (real_gid w) <> 502 ->
  run (RsyncWrapper.main argc argv) w
  = Halt (Exited 1)
        {| gid := C.to_int (real_gid w); errno := 0;
           calls := drop (real_gid w) (real_uid w)
                    ++ [Printf msg_unauthorized []; Exit 1] |}.
Proof.
  intros Hg. bool_hyps. unfold_main. rewrite Hg. reflexivity.
Qed.

Lemma rsync_usage :
  C.to_int (real_gid w) = 502 -> argc <> 1 ->
  run (RsyncWrapper.main argc argv) w
  = Halt (Exited 1)
        {| gid := 502; errno := 0;
           calls := drop (real_gid w) (real_uid w)
                    ++ [Printf msg_usage_rsync []; Exit 1] |}.
Proof.
  intros Hg Ha. unfold_main. rewrite Hg. bool_hyps. rewrite Ha.
  reflexivity.
Qed.

Lemma rsync_exec :
  C.to_int (real_gid w) = 502 -> argc = 1 ->
  run (RsyncWrapper.main argc argv) w
  = match execl_errno w rsync_path RsyncWrapper.rsync_argv with
      | None =>
          Halt (Replaced rsync_path RsyncWrapper.rsync_argv)
            {| gid := 502; errno := 0;
               calls := drop (real_gid w) (real_uid w) ++ reescalation
                        ++ [Execl rsync_path RsyncWrapper.rsync_argv] |}
      | Some e =>
          Halt (Exited 0)
            {| gid := 502; errno := e;
               calls := drop (real_gid w) (real_uid w) ++ reescalation
                        ++ [Execl rsync_path RsyncWrapper.rsync_argv;
                            Perror "Execl:" e; Exit 0] |}
      end.
Proof.
  intros Hg Ha. unfold_main. rewrite Hg. subst argc. unfold rsync_path. cbn.
  destruct (execl_errno w _ _); reflexivity.
Qed.

Lemma rsync_halts : exists o p, run (RsyncWrapper.main argc argv) w = Halt o p.
Proof.
  destruct (Z.eq_dec (C.to_int (real_gid w)) 502) as [Hg | Hg].
  2: { rewrite (rsync_unauthorized Hg). eauto. }
  destruct (Z.eq_dec argc 1) as [Ha | Ha].
  2: { rewrite (rsync_usage Hg Ha). eauto. }
  rewrite (rsync_exec Hg Ha). destruct (execl_errno w _ _); eauto.
Qed.

End RsyncWrapperRuns.

Lemma print_run (w : os) (argc : Z) (argv : list string) :
  run (PrintCmdWrapper.main argc argv) w
  = Halt (Exited 0)
      {| gid := 0; errno := 0;
         calls := [Getenv "SSH_ORIGINAL_COMMAND";
                   Printf msg_original [command w]; Exit 0] |}.
Proof. reflexivity. Qed.

Lemma append_empty_r (s : string) : (s ++ "")%string = s.
Proof. induction s as [| c s IH]; simpl; [reflexivity | now rewrite IH]. Qed.

Lemma sprintf_original (a : option string) :
  C.sprintf msg_original [a]
  = ("Original Command:" ++ C.show_arg a ++ C.LF)%string.
Proof. reflexivity. Qed.

(** ** Derived facts shared by the statements below *)

(** Case analysis over the branches of cmd-wrapper: rewrites the run with
    the branch lemma that applies. *)
Ltac cmd_cases w argc argv :=
  let Hg := fresh "Hg" in
  let Ha := fresh "Ha" in
  let Hc := fresh "Hc" in
  let Hp := fresh "Hp" in
  let Hq := fresh "Hq" in
  let s := fresh "s" in
  destruct (Z.eqb_spec (C.to_int (real_gid w)) 502) as [Hg | Hg];
  [ destruct (Z.eqb_spec argc 1) as [Ha | Ha];
    [ destruct (command w) as [s |] eqn:Hc;
      [ destruct (Z.eqb_spec (C.strncmp s "pre" 3) 0) as [Hp | Hp];
        [ rewrite (cmd_pre w argc argv s Hg Ha Hc Hp);
          destruct (execl_errno w pre_script ["rsnapshot-pre.sh"])
        | destruct (Z.eqb_spec (C.strncmp s "post" 4) 0) as [Hq | Hq];
          [ rewrite (cmd_post w argc argv s Hg Ha Hc Hp Hq);
            destruct (execl_errno w post_script ["rsnapshot-post.sh"])
          | rewrite (cmd_invalid w argc argv s Hg Ha Hc Hp Hq) ] ]
      | rewrite (cmd_null w argc argv Hg Ha Hc) ]
    | rewrite (cmd_usage w argc argv Hg Ha) ]
  | rewrite (cmd_unauthorized w argc argv Hg) ].

Ltac rsync_cases w argc argv :=
  let Hg := fresh "Hg" in
  let Ha := fresh "Ha" in
  destruct (Z.eqb_spec (C.to_int (real_gid w)) 502) as [Hg | Hg];
  [ destruct (Z.eqb_spec argc 1) as [Ha | Ha];
    [ rewrite (rsync_exec w argc argv Hg Ha);
      destruct (execl_errno w rsync_path RsyncWrapper.rsync_argv)
    | rewrite (rsync_usage w argc argv Hg Ha) ]
  | rewrite (rsync_unauthorized w argc argv Hg) ].

(** The privilege-changing calls of any run of cmd-wrapper: the drop, then
    the four re-escalation calls exactly when both checks pass. *)
Lemma cmd_setid_calls (w : os) (argc : Z) (argv : list string) :
  setid_calls (trace (run (CmdWrapper.main argc argv) w))
  = [Setegid (real_gid w); Seteuid (real_uid w)]
    ++ (if (C.to_int (real_gid w) =? 502) && (argc =? 1)
        then reescalation else []).
Proof. cmd_cases w argc argv; reflexivity. Qed.

Lemma rsync_setid_calls (w : os) (argc : Z) (argv : list string) :
  setid_calls (trace (run (RsyncWrapper.main argc argv) w))
  = [Setegid (real_gid w); Seteuid (real_uid w)]
    ++ (if (C.to_int (real_gid w) =? 502) && (argc =? 1)
        then reescalation else []).
Proof. rsync_cases w argc argv; reflexivity. Qed.

(** The prefix comparisons of any run of cmd-wrapper are an initial
    segment of: "pre" (3 bytes), then "post" (4 bytes). *)
Lemma cmd_comparison_order (w : os) (argc : Z) (argv : list string) :
  exists k,
    strncmp_calls (trace (run (CmdWrapper.main argc argv) w))
    = firstn k [Strncmp (command w) "pre" 3; Strncmp (command w) "post" 4].
Proof.
  cmd_cases w argc argv;
    first [ now exists 0%nat | now exists 1%nat | now exists 2%nat ].
Qed.

(** With every privilege-changing call failing, an authorized [pre] request
    still reaches [execl]. *)
Example cmd_run_when_setid_fails :
  run (CmdWrapper.main 1 ["cmd-wrapper"]) (with_setid_ret os_preempt all_fail)
  = Halt (Replaced pre_script ["rsnapshot-pre.sh"])
      {| gid := 502; errno := 0;
         calls := prologue os_preempt ++ reescalation
                  ++ [Strncmp (Some "preempt") "pre" 3;
                      Execl pre_script ["rsnapshot-pre.sh"]] |}.
Proof. reflexivity. Qed.

(** The image replacements attempted by any run of rsync-wrapper. *)
Lemma rsync_execl_calls (w : os) (argc : Z) (argv : list string) :
  execl_calls (trace (run (RsyncWrapper.main argc argv) w))
  = if (C.to_int (real_gid w) =? 502) && (argc =? 1)
    then [Execl rsync_path RsyncWrapper.rsync_argv] else [].
Proof. rsync_cases w argc argv; reflexivity. Qed.

(** The image replacements attempted by any run of cmd-wrapper. *)
Lemma cmd_execl_calls (w : os) (argc : Z) (argv : list string) :
  execl_calls (trace (run (CmdWrapper.main argc argv) w))
  = if (C.to_int (real_gid w) =? 502) && (argc =? 1)
    then match command w with
         | Some s =>
             if C.strncmp s "pre" 3 =? 0
             then [Execl pre_script ["rsnapshot-pre.sh"]]
             else if C.strncmp s "post" 4 =? 0
                  then [Execl post_script ["rsnapshot-post.sh"]]
                  else []
         | None => []
         end
    else [].
Proof. cmd_cases w argc argv; reflexivity. Qed.

(** ** The dispatchers against their specification *)

(** C1, as stated, fails: with real gid 502, one argument and the command
    [foo], cmd-wrapper leaves through the invalid-command exit (status 1)
    only after setegid(0), seteuid(0), setgid(0) and setuid(0) have all been
    called, so it is not true that no re-escalation call has run. *)
Lemma cmd_validation_exit_after_reescalation :
  outcome_of (run (CmdWrapper.main 1 ["cmd-wrapper"]) os_foo) = Some (Exited 1)
  /\ trace (run (CmdWrapper.main 1 ["cmd-wrapper"]) os_foo)
     = prologue os_foo ++ reescalation
       ++ [Strncmp (Some "foo") "pre" 3; Strncmp (Some "foo") "post" 4;
           Printf msg_invalid [Some "foo"]; Printf msg_usage_command [];
           Exit 1]
  /\ ~ (forall c, In c reescalation ->
        ~ In c (trace (run (CmdWrapper.main 1 ["cmd-wrapper"]) os_foo))).
Proof.
  split; [reflexivity | split; [reflexivity |]].
  intros H. apply (H (Setuid 0)).
  - simpl. tauto.
  - vm_compute. tauto.
Qed.

(** C1, amended: in cmd-wrapper the argument-count check comes before the
    re-escalation and the validation of the command string after it.  For
    an authorized caller, a usage-error exit (argc other than 1) happens with
    no re-escalation call made, and an invalid-command exit (argc 1, the
    command present and matching neither prefix) happens after the four
    re-escalation calls, with status 1 in both cases. *)
Theorem cmd_failure_exits (w : os) (argc : Z) (argv : list string) :
  real_gid w = 502 ->
  (argc <> 1 ->
   run (CmdWrapper.main argc argv) w
   = Halt (Exited 1)
       {| gid := 502; errno := 0;
          calls := prologue w ++ [Printf msg_usage_cmd []; Exit 1] |})
  /\
  (argc = 1 ->
   forall s, command w = Some s ->
   C.strncmp s "pre" 3 <> 0 -> C.strncmp s "post" 4 <> 0 ->
   run (CmdWrapper.main argc argv) w
   = Halt (Exited 1)
       {| gid := 502; errno := 0;
          calls := prologue w ++ reescalation
                   ++ [Strncmp (Some s) "pre" 3; Strncmp (Some s) "post" 4;
                       Printf msg_invalid [Some s];
                       Printf msg_usage_command []; Exit 1] |}).
Proof.
  intros Hr. pose proof (authorized_gid w Hr) as Hg. split.
  - intros Ha. now apply cmd_usage.
  - intros Ha s Hc Hp Hq. now apply cmd_invalid.
Qed.

Lemma cmd_failure_exits_witness :
  real_gid os_foo = 502
  /\ run (CmdWrapper.main 2 ["cmd-wrapper"; "pre"]) os_foo
     = Halt (Exited 1)
         {| gid := 502; errno := 0;
            calls := prologue os_foo ++ [Printf msg_usage_cmd []; Exit 1] |}
  /\ run (CmdWrapper.main 1 ["cmd-wrapper"]) os_foo
     = Halt (Exited 1)
         {| gid := 502; errno := 0;
            calls := prologue os_foo ++ reescalation
                     ++ [Strncmp (Some "foo") "pre" 3;
                         Strncmp (Some "foo") "post" 4;
                         Printf msg_invalid [Some "foo"];
                         Printf msg_usage_command []; Exit 1] |}.
Proof.
  split; [reflexivity | split].
  - apply (proj1 (cmd_failure_exits os_foo 2 ["cmd-wrapper"; "pre"] eq_refl)).
    lia.
  - apply (proj2 (cmd_failure_exits os_foo 1 ["cmd-wrapper"] eq_refl)
             eq_refl "foo" eq_refl); vm_compute; discriminate.
Defined.

(** C2: what the code does when the image replacement fails.  With real
    gid 502, one argument and [execl] failing with ENOENT, each exec site
    (the pre and post scripts of cmd-wrapper, rsync of rsync-wrapper) calls
    [perror] with the errno of the failed call, attempts nothing else, and
    then exits with status 0, where the specification asks for status 1. *)
Theorem exec_failure_exits_zero :
  run (CmdWrapper.main 1 ["cmd-wrapper"]) os_pre_enoent
  = Halt (Exited 0)
      {| gid := 502; errno := ENOENT;
         calls := prologue os_pre_enoent ++ reescalation
                  ++ [Strncmp (Some "pre") "pre" 3;
                      Execl pre_script ["rsnapshot-pre.sh"];
                      Perror "Execl:" ENOENT; Exit 0] |}
  /\ run (CmdWrapper.main 1 ["cmd-wrapper"]) os_post_enoent
     = Halt (Exited 0)
         {| gid := 502; errno := ENOENT;
            calls := prologue os_post_enoent ++ reescalation
                     ++ [Strncmp (Some "post") "pre" 3;
                         Strncmp (Some "post") "post" 4;
                         Execl post_script ["rsnapshot-post.sh"];
                         Perror "Execl:" ENOENT; Exit 0] |}
  /\ run (RsyncWrapper.main 1 ["rsync-wrapper"]) os_pre_enoent
     = Halt (Exited 0)
         {| gid := 502; errno := ENOENT;
            calls := drop 502 1001 ++ reescalation
                     ++ [Execl rsync_path RsyncWrapper.rsync_argv;
                         Perror "Execl:" ENOENT; Exit 0] |}.
Proof. repeat split. Qed.

(** C3: what the code does when SSH_ORIGINAL_COMMAND is absent.  With real
    gid 502 and one argument, [getenv] returns the null pointer, the four
    re-escalation calls are made, and the null pointer is passed to
    [strncmp] for the comparison with "pre": the run ends in a fault, not in
    an exit with status 1. *)
Theorem cmd_absent_command_faults :
  command os_absent = None
  /\ run (CmdWrapper.main 1 ["cmd-wrapper"]) os_absent
     = Halt Fault
         {| gid := 502; errno := 0;
            calls := prologue os_absent ++ reescalation
                     ++ [Strncmp None "pre" 3] |}.
Proof. split; reflexivity. Qed.

(** C4: for every real group id other than 502, cmd-wrapper and
    rsync-wrapper exit with status 1 right after the privilege drop: no
    prefix comparison is made, no [execl] is attempted, whatever the
    arguments and the environment are. *)
Theorem unauthorized_group_rejected (w : os) (argc : Z) (argv : list string) :
  C.is_id (real_gid w) ->
  real_gid w <> 502 ->
  (outcome_of (run (CmdWrapper.main argc argv) w) = Some (Exited 1)
   /\ trace (run (CmdWrapper.main argc argv) w)
      = prologue w ++ [Printf msg_unauthorized []; Exit 1]
   /\ strncmp_calls (trace (run (CmdWrapper.main argc argv) w)) = []
   /\ execl_calls (trace (run (CmdWrapper.main argc argv) w)) = [])
  /\
  (outcome_of (run (RsyncWrapper.main argc argv) w) = Some (Exited 1)
   /\ trace (run (RsyncWrapper.main argc argv) w)
      = drop (real_gid w) (real_uid w) ++ [Printf msg_unauthorized []; Exit 1]
   /\ strncmp_calls (trace (run (RsyncWrapper.main argc argv) w)) = []
   /\ execl_calls (trace (run (RsyncWrapper.main argc argv) w)) = []).
Proof.
  intros Hid Hne.
  assert (Hg : C.to_int (real_gid w) <> 502).
  { intros H. apply Hne. now apply to_int_502. }
  rewrite (cmd_unauthorized w argc argv Hg).
  rewrite (rsync_unauthorized w argc argv Hg).
  repeat split.
Qed.

Lemma unauthorized_group_rejected_witness :
  C.is_id 999 /\ 999 <> 502
  /\ outcome_of (run (CmdWrapper.main 1 ["cmd-wrapper"]) os_999)
     = Some (Exited 1)
  /\ outcome_of (run (RsyncWrapper.main 1 ["rsync-wrapper"]) os_999)
     = Some (Exited 1).
Proof.
  assert (Hid : C.is_id 999) by (unfold C.is_id; simpl; lia).
  assert (Hne : 999 <> 502) by lia.
  pose proof (unauthorized_group_rejected os_999 1
                ["cmd-wrapper"] Hid Hne) as [[H1 _] _].
  pose proof (unauthorized_group_rejected os_999 1
                ["rsync-wrapper"] Hid Hne) as [_ [H2 _]].
  repeat split; assumption || exact Hid || lia.
Defined.

(** Two runs of the same program under operating systems that differ in a
    component the program does not use: the runs take the same branches. *)
Ltac same_run :=
  unfold_main;
  cbn [with_setid_ret with_environ real_gid real_uid environ execl_errno];
  repeat match goal with
    | |- context [if negb ?b then _ else _] => destruct b; cbn
    | |- context [match C.lookup ?n ?e with _ => _ end] =>
        destruct (C.lookup n e); cbn
    | |- context [if ?b then _ else _] => destruct b; cbn
    | |- context [match execl_errno ?w ?p ?a with _ => _ end] =>
        destruct (execl_errno w p a); cbn
    end;
  reflexivity.

(** C5, as stated, fails: with real gid 502, one argument and the command
    [posterior], the 4-byte comparison with "post" succeeds and the process
    image is replaced by the post script; the run does not exit with
    status 1. *)
Lemma cmd_posterior_not_rejected :
  outcome_of (run (CmdWrapper.main 1 ["cmd-wrapper"]) os_posterior)
  = Some (Replaced post_script ["rsnapshot-post.sh"])
  /\ outcome_of (run (CmdWrapper.main 1 ["cmd-wrapper"]) os_posterior)
     <> Some (Exited 1).
Proof. split; [reflexivity | discriminate]. Qed.

(** C5, amended: with real gid 502, one argument and the command
    [posterior], cmd-wrapper compares with "pre" (no match), then with
    "post" over 4 bytes (match), and attempts exactly one image replacement,
    by /root/bin/rsnapshot-post.sh with the argument vector
    [rsnapshot-post.sh]; unless that [execl] fails, the image is replaced. *)
Theorem cmd_posterior_selects_post (w : os) (argv : list string) :
  real_gid w = 502 ->
  command w = Some "posterior" ->
  strncmp_calls (trace (run (CmdWrapper.main 1 argv) w))
  = [Strncmp (Some "posterior") "pre" 3; Strncmp (Some "posterior") "post" 4]
  /\ execl_calls (trace (run (CmdWrapper.main 1 argv) w))
     = [Execl post_script ["rsnapshot-post.sh"]]
  /\ (outcome_of (run (CmdWrapper.main 1 argv) w)
      = Some (Replaced post_script ["rsnapshot-post.sh"])
      \/ exists e, execl_errno w post_script ["rsnapshot-post.sh"] = Some e).
Proof.
  intros Hr Hc. pose proof (authorized_gid w Hr) as Hg.
  assert (Hp : C.strncmp "posterior" "pre" 3 <> 0) by (vm_compute; discriminate).
  assert (Hq : C.strncmp "posterior" "post" 4 = 0) by reflexivity.
  rewrite (cmd_post w 1 argv "posterior" Hg eq_refl Hc Hp Hq).
  destruct (execl_errno w post_script ["rsnapshot-post.sh"]) as [e |].
  - repeat split. right. now exists e.
  - repeat split. now left.
Qed.

Lemma cmd_posterior_selects_post_witness :
  real_gid os_posterior = 502
  /\ command os_posterior = Some "posterior"
  /\ execl_calls (trace (run (CmdWrapper.main 1 ["cmd-wrapper"]) os_posterior))
     = [Execl post_script ["rsnapshot-post.sh"]].
Proof.
  split; [reflexivity | split; [reflexivity |]].
  exact (proj1 (proj2 (cmd_posterior_selects_post os_posterior ["cmd-wrapper"]
                         eq_refl eq_refl))).
Defined.

(** C6: with real gid 502 and one argument, every command that begins
    with [pre] (the command [pre] itself included) selects the pre action
    only: the single comparison made is the one with "pre", the single image
    replacement attempted is /root/bin/rsnapshot-pre.sh with the argument
    vector [rsnapshot-pre.sh] and nothing else, and unless that [execl]
    fails the image is replaced by it.  In every run the comparison with
    "pre" comes before the one with "post". *)
Theorem cmd_pre_selects_pre (w : os) (argv : list string) (rest : string) :
  real_gid w = 502 ->
  command w = Some ("pre" ++ rest)%string ->
  strncmp_calls (trace (run (CmdWrapper.main 1 argv) w))
  = [Strncmp (Some ("pre" ++ rest)%string) "pre" 3]
  /\ execl_calls (trace (run (CmdWrapper.main 1 argv) w))
     = [Execl pre_script ["rsnapshot-pre.sh"]]
  /\ (outcome_of (run (CmdWrapper.main 1 argv) w)
      = Some (Replaced pre_script ["rsnapshot-pre.sh"])
      \/ exists e, execl_errno w pre_script ["rsnapshot-pre.sh"] = Some e)
  /\ (forall w' argc' argv', exists k,
        strncmp_calls (trace (run (CmdWrapper.main argc' argv') w'))
        = firstn k [Strncmp (command w') "pre" 3;
                    Strncmp (command w') "post" 4]).
Proof.
  intros Hr Hc. pose proof (authorized_gid w Hr) as Hg.
  assert (Hp : C.strncmp ("pre" ++ rest) "pre" 3 = 0).
  { apply strncmp_pre. now exists rest. }
  rewrite (cmd_pre w 1 argv _ Hg eq_refl Hc Hp).
  destruct (execl_errno w pre_script ["rsnapshot-pre.sh"]) as [e |].
  - repeat split; [right; now exists e | apply cmd_comparison_order].
  - repeat split; [now left | apply cmd_comparison_order].
Qed.

Lemma cmd_pre_selects_pre_witness :
  real_gid os_preempt = 502
  /\ command os_preempt = Some ("pre" ++ "empt")%string
  /\ execl_calls
       (trace (run (CmdWrapper.main 1 ["cmd-wrapper"])
                 os_preempt))
     = [Execl pre_script ["rsnapshot-pre.sh"]].
Proof.
  split; [reflexivity | split; [reflexivity |]].
  exact (proj1 (proj2 (cmd_pre_selects_pre os_preempt
                         ["cmd-wrapper"] "empt" eq_refl eq_refl))).
Defined.

(** C7: any two runs of rsync-wrapper that pass the authorization and the
    argument-count checks attempt the same single image replacement,
    /usr/bin/rsync with its fixed argument vector; and the whole run is the
    same under any other environment, so the command string has no
    influence. *)
Theorem rsync_fixed_action (w1 w2 : os) (argv1 argv2 : list string) :
  real_gid w1 = 502 ->
  real_gid w2 = 502 ->
  execl_calls (trace (run (RsyncWrapper.main 1 argv1) w1))
  = [Execl "/usr/bin/rsync"
       ["rsync"; "--server"; "--sender"; "-vlogDtprRe.iLsf";
        "--numeric-ids"; "."; "/"]]
  /\ execl_calls (trace (run (RsyncWrapper.main 1 argv2) w2))
     = execl_calls (trace (run (RsyncWrapper.main 1 argv1) w1))
  /\ (forall env,
        run (RsyncWrapper.main 1 argv1) (with_environ w1 env)
        = run (RsyncWrapper.main 1 argv1) w1).
Proof.
  intros H1 H2. apply authorized_gid in H1, H2. split; [| split].
  - now rewrite rsync_execl_calls, H1.
  - now rewrite !rsync_execl_calls, H1, H2.
  - intros env. same_run.
Qed.

Lemma rsync_fixed_action_witness :
  real_gid os_preempt = 502
  /\ real_gid os_shell = 502
  /\ execl_calls
       (trace (run (RsyncWrapper.main 1 ["rsync-wrapper"])
                 os_shell))
     = execl_calls
         (trace (run (RsyncWrapper.main 1 ["rsync-wrapper"])
                   os_preempt)).
Proof.
  split; [reflexivity | split; [reflexivity |]].
  exact (proj1 (proj2 (rsync_fixed_action os_preempt
                         os_shell
                         ["rsync-wrapper"] ["rsync-wrapper"]
                         eq_refl eq_refl))).
Defined.

(** C8: in both dispatchers, a run makes the re-escalation calls exactly
    when the authorization and the argument-count checks pass, and then in
    this order after the two calls of the drop: setegid(0), seteuid(0),
    setgid(0), setuid(0). *)
Theorem reescalation_order (w : os) (argc : Z) (argv : list string) :
  setid_calls (trace (run (CmdWrapper.main argc argv) w))
  = [Setegid (real_gid w); Seteuid (real_uid w)]
    ++ (if (C.to_int (real_gid w) =? 502) && (argc =? 1)
        then [Setegid 0; Seteuid 0; Setgid 0; Setuid 0] else [])
  /\ setid_calls (trace (run (RsyncWrapper.main argc argv) w))
     = [Setegid (real_gid w); Seteuid (real_uid w)]
       ++ (if (C.to_int (real_gid w) =? 502) && (argc =? 1)
           then [Setegid 0; Seteuid 0; Setgid 0; Setuid 0] else []).
Proof.
  split; [apply cmd_setid_calls | apply rsync_setid_calls].
Qed.

(** C9: the return values of the six privilege-changing calls are never
    looked at: under any other return values the run of each dispatcher is
    the same, call for call and with the same outcome, and the [execl]
    calls it attempts are those chosen by the checks and the command alone. *)
Theorem setid_results_ignored
  (w : os) (f : list call -> Z) (argc : Z) (argv : list string) :
  run (CmdWrapper.main argc argv) (with_setid_ret w f)
  = run (CmdWrapper.main argc argv) w
  /\ run (RsyncWrapper.main argc argv) (with_setid_ret w f)
     = run (RsyncWrapper.main argc argv) w
  /\ execl_calls (trace (run (RsyncWrapper.main argc argv) (with_setid_ret w f)))
     = (if (C.to_int (real_gid w) =? 502) && (argc =? 1)
        then [Execl rsync_path RsyncWrapper.rsync_argv] else [])
  /\ execl_calls (trace (run (CmdWrapper.main argc argv) (with_setid_ret w f)))
     = (if (C.to_int (real_gid w) =? 502) && (argc =? 1)
        then match command w with
             | Some s =>
                 if C.strncmp s "pre" 3 =? 0
                 then [Execl pre_script ["rsnapshot-pre.sh"]]
                 else if C.strncmp s "post" 4 =? 0
                      then [Execl post_script ["rsnapshot-post.sh"]]
                      else []
             | None => []
             end
        else []).
Proof.
  split; [same_run | split; [same_run | split]].
  - apply (rsync_execl_calls (with_setid_ret w f)).
  - apply (cmd_execl_calls (with_setid_ret w f)).
Qed.

(** C10: print-cmd-wrapper looks at no id and changes none.  Every run,
    whatever the real group, the arguments and the environment, makes three
    calls: [getenv] of SSH_ORIGINAL_COMMAND, [printf] of its value after
    [Original Command:], and [exit] with status 0; no [execl] is attempted. *)
Theorem print_wrapper_prints_and_exits (w : os) (argc : Z) (argv : list string) :
  run (PrintCmdWrapper.main argc argv) w
  = Halt (Exited 0)
      {| gid := 0; errno := 0;
         calls := [Getenv "SSH_ORIGINAL_COMMAND";
                   Printf msg_original [command w]; Exit 0] |}
  /\ stdout (trace (run (PrintCmdWrapper.main argc argv) w))
     = ("Original Command:" ++ C.show_arg (command w) ++ C.LF)%string
  /\ setid_calls (trace (run (PrintCmdWrapper.main argc argv) w)) = []
  /\ execl_calls (trace (run (PrintCmdWrapper.main argc argv) w)) = []
  /\ ~ In Getgid (trace (run (PrintCmdWrapper.main argc argv) w)).
Proof.
  rewrite print_run. cbn [trace proc_of calls stdout].
  rewrite append_empty_r, sprintf_original. repeat split.
  simpl. intros [H | [H | [H | []]]]; discriminate.
Qed.

(** ** Further properties of the wrappers *)

(** *** Strings *)

Lemma prefix_append (lit s : string) :
  String.prefix lit s = true <-> exists r, s = (lit ++ r)%string.
Proof.
  revert s. induction lit as [| c lit IH]; intros s.
  - destruct s; simpl; split; eauto.
  - destruct s as [| d s]; simpl.
    + split; [discriminate | intros [r Hr]; discriminate].
    + destruct (ascii_dec c d) as [-> | Hne].
      * rewrite IH. split; intros [r Hr]; exists r; congruence.
      * split; [discriminate | intros [r Hr]; congruence].
Qed.

Lemma strncmp_pre_prefix (s : string) :
  C.strncmp s "pre" 3 = 0 <-> String.prefix "pre" s = true.
Proof. now rewrite strncmp_pre, prefix_append. Qed.

Lemma strncmp_post_prefix (s : string) :
  C.strncmp s "post" 4 = 0 <-> String.prefix "post" s = true.
Proof. now rewrite strncmp_post, prefix_append. Qed.

Lemma not_prefix_pre (s : string) :
  String.prefix "pre" s = false -> C.strncmp s "pre" 3 <> 0.
Proof. intros H Hz. apply strncmp_pre_prefix in Hz. congruence. Qed.

Lemma not_prefix_post (s : string) :
  String.prefix "post" s = false -> C.strncmp s "post" 4 <> 0.
Proof. intros H Hz. apply strncmp_post_prefix in Hz. congruence. Qed.

(** A command cannot begin with both selectors. *)
Lemma prefix_post_not_pre (s : string) :
  String.prefix "post" s = true -> String.prefix "pre" s = false.
Proof.
  intros H. apply prefix_append in H. destruct H as [r ->]. reflexivity.
Qed.

Lemma string_append_assoc (a b c : string) :
  ((a ++ b) ++ c)%string = (a ++ (b ++ c))%string.
Proof. induction a as [| x a IH]; simpl; [reflexivity | now rewrite IH]. Qed.

Lemma sprintf_invalid (s : string) :
  C.sprintf msg_invalid [Some s] = ("ERROR: Invalid command: " ++ s ++ C.LF)%string.
Proof. reflexivity. Qed.

(** *** Selection of the post action *)

(** X1: with real gid 502 and one argument, every command that begins with
    [post] selects the post action: the comparison with "pre" fails, the one
    with "post" matches, the single image replacement attempted is
    /root/bin/rsnapshot-post.sh with the argument vector [rsnapshot-post.sh],
    and unless that [execl] fails the image is replaced by it. *)
Theorem cmd_post_selects_post (w : os) (argv : list string) (rest : string) :
  real_gid w = 502 ->
  command w = Some ("post" ++ rest)%string ->
  strncmp_calls (trace (run (CmdWrapper.main 1 argv) w))
  = [Strncmp (Some ("post" ++ rest)%string) "pre" 3;
     Strncmp (Some ("post" ++ rest)%string) "post" 4]
  /\ execl_calls (trace (run (CmdWrapper.main 1 argv) w))
     = [Execl "/root/bin/rsnapshot-post.sh" ["rsnapshot-post.sh"]]
  /\ (outcome_of (run (CmdWrapper.main 1 argv) w)
      = Some (Replaced "/root/bin/rsnapshot-post.sh" ["rsnapshot-post.sh"])
      \/ exists e, execl_errno w post_script ["rsnapshot-post.sh"] = Some e).
Proof.
  intros Hr Hc. pose proof (authorized_gid w Hr) as Hg.
  assert (Hq : C.strncmp ("post" ++ rest) "post" 4 = 0).
  { apply strncmp_post. now exists rest. }
  assert (Hp : C.strncmp ("post" ++ rest) "pre" 3 <> 0).
  { apply not_prefix_pre. reflexivity. }
  rewrite (cmd_post w 1 argv _ Hg eq_refl Hc Hp Hq).
  destruct (execl_errno w post_script ["rsnapshot-post.sh"]) as [e |].
  - repeat split. right. now exists e.
  - repeat split. now left.
Qed.

Lemma cmd_post_selects_post_witness :
  real_gid os_postfix = 502
  /\ command os_postfix = Some ("post" ++ "fix reload")%string
  /\ outcome_of (run (CmdWrapper.main 1 ["cmd-wrapper"]) os_postfix)
     = Some (Replaced "/root/bin/rsnapshot-post.sh" ["rsnapshot-post.sh"]).
Proof.
  split; [reflexivity | split; [reflexivity |]].
  destruct (cmd_post_selects_post os_postfix ["cmd-wrapper"] "fix reload"
              eq_refl eq_refl) as [_ [_ [H | [e He]]]].
  - exact H.
  - discriminate He.
Defined.

(** *** Rejection of every other command *)

(** X2: with real gid 502 and one argument, every command that is present
    and begins neither with [pre] nor with [post] (the empty string
    included) is rejected: the run exits with status 1 after the two
    comparisons, attempts no image replacement, and writes on standard output
    the command itself, verbatim, in the error line, then the usage line. *)
Theorem cmd_rejects_unrecognised (w : os) (argv : list string) (s : string) :
  real_gid w = 502 ->
  command w = Some s ->
  recognised s = false ->
  outcome_of (run (CmdWrapper.main 1 argv) w) = Some (Exited 1)
  /\ strncmp_calls (trace (run (CmdWrapper.main 1 argv) w))
     = [Strncmp (Some s) "pre" 3; Strncmp (Some s) "post" 4]
  /\ execl_calls (trace (run (CmdWrapper.main 1 argv) w)) = []
  /\ stdout (trace (run (CmdWrapper.main 1 argv) w))
     = ("ERROR: Invalid command: " ++ s ++ C.LF
        ++ "Usage: COMMAND [pre|post]" ++ C.LF)%string.
Proof.
  intros Hr Hc Hrec. pose proof (authorized_gid w Hr) as Hg.
  unfold recognised in Hrec. apply orb_false_iff in Hrec.
  destruct Hrec as [Hp Hq].
  apply not_prefix_pre in Hp. apply not_prefix_post in Hq.
  rewrite (cmd_invalid w 1 argv s Hg eq_refl Hc Hp Hq).
  repeat split.
  cbn [trace proc_of calls prologue drop reescalation app stdout].
  rewrite sprintf_invalid, append_empty_r.
  rewrite !string_append_assoc. reflexivity.
Qed.

Lemma cmd_rejects_unrecognised_witness :
  real_gid os_empty = 502
  /\ command os_empty = Some ""
  /\ recognised "" = false
  /\ outcome_of (run (CmdWrapper.main 1 ["cmd-wrapper"]) os_empty)
     = Some (Exited 1).
Proof.
  split; [reflexivity | split; [reflexivity | split; [reflexivity |]]].
  exact (proj1 (cmd_rejects_unrecognised os_empty ["cmd-wrapper"] ""
                  eq_refl eq_refl eq_refl)).
Defined.

(** *** When an image replacement is attempted, and with what *)

Lemma strncmp_pre_eqb (s : string) :
  (C.strncmp s "pre" 3 =? 0) = String.prefix "pre" s.
Proof.
  apply eq_true_iff_eq. rewrite Z.eqb_eq. apply strncmp_pre_prefix.
Qed.

Lemma strncmp_post_eqb (s : string) :
  (C.strncmp s "post" 4 =? 0) = String.prefix "post" s.
Proof.
  apply eq_true_iff_eq. rewrite Z.eqb_eq. apply strncmp_post_prefix.
Qed.

(** X3: cmd-wrapper attempts an image replacement exactly when the real
    group converts to 502, there is one argument, and the command is present
    and begins with [pre] or [post]. *)
Theorem cmd_exec_iff (w : os) (argc : Z) (argv : list string) :
  execl_calls (trace (run (CmdWrapper.main argc argv) w)) <> []
  <-> (C.to_int (real_gid w) = 502 /\ argc = 1
       /\ exists s, command w = Some s /\ recognised s = true).
Proof.
  rewrite cmd_execl_calls. unfold recognised.
  destruct (Z.eqb_spec (C.to_int (real_gid w)) 502) as [Hg | Hg];
    [| simpl; split; [congruence | tauto]].
  destruct (Z.eqb_spec argc 1) as [Ha | Ha];
    [| simpl; split; [congruence | tauto]].
  destruct (command w) as [s |];
    [| simpl; split; [congruence | intros [_ [_ [s [Hs _]]]]; discriminate]].
  rewrite strncmp_pre_eqb, strncmp_post_eqb. simpl.
  destruct (String.prefix "pre" s) eqn:Hp.
  - split; [| discriminate]. intros _. repeat split; trivial.
    exists s. now rewrite Hp.
  - destruct (String.prefix "post" s) eqn:Hq.
    + split; [| discriminate]. intros _. repeat split; trivial.
      exists s. now rewrite Hp, Hq.
    + split; [congruence |].
      intros [_ [_ [s' [Hs Hrec]]]]. injection Hs as <-.
      rewrite Hp, Hq in Hrec. discriminate.
Qed.

(** X4: no byte of the caller's input reaches [execl].  In every run of
    cmd-wrapper at most one image replacement is attempted and it is one of
    the two fixed ones; in every run of rsync-wrapper at most one, the fixed
    rsync invocation. *)
Theorem exec_arguments_fixed (w : os) (argc : Z) (argv : list string) :
  ((List.length (execl_calls (trace (run (CmdWrapper.main argc argv) w))) <= 1)%nat
   /\ forall c, In c (execl_calls (trace (run (CmdWrapper.main argc argv) w))) ->
        c = Execl "/root/bin/rsnapshot-pre.sh" ["rsnapshot-pre.sh"]
        \/ c = Execl "/root/bin/rsnapshot-post.sh" ["rsnapshot-post.sh"])
  /\
  ((List.length (execl_calls (trace (run (RsyncWrapper.main argc argv) w))) <= 1)%nat
   /\ forall c, In c (execl_calls (trace (run (RsyncWrapper.main argc argv) w))) ->
        c = Execl "/usr/bin/rsync"
              ["rsync"; "--server"; "--sender"; "-vlogDtprRe.iLsf";
               "--numeric-ids"; "."; "/"]).
Proof.
  rewrite cmd_execl_calls, rsync_execl_calls.
  destruct ((C.to_int (real_gid w) =? 502) && (argc =? 1)).
  2: { simpl. repeat split; (lia || tauto). }
  split.
  - destruct (command w) as [s |]; [| simpl; split; [lia | tauto]].
    destruct (C.strncmp s "pre" 3 =? 0).
    + simpl. split; [lia |]. intros c [<- | []]. now left.
    + destruct (C.strncmp s "post" 4 =? 0).
      * simpl. split; [lia |]. intros c [<- | []]. now right.
      * simpl. split; [lia | tauto].
  - simpl. split; [lia |]. intros c [<- | []]. reflexivity.
Qed.

(** *** The absent command *)

(** X5: when SSH_ORIGINAL_COMMAND is not in the environment, cmd-wrapper
    hands the null pointer to [strncmp] only if the real group converts to
    502 and there is one argument, and the run then ends in a fault; in every
    other case the pointer is not used and the run exits with status 1.  No
    image replacement is attempted either way. *)
Theorem cmd_absent_command (w : os) (argc : Z) (argv : list string) :
  command w = None ->
  outcome_of (run (CmdWrapper.main argc argv) w)
  = Some (if (C.to_int (real_gid w) =? 502) && (argc =? 1)
          then Fault else Exited 1)
  /\ strncmp_calls (trace (run (CmdWrapper.main argc argv) w))
     = (if (C.to_int (real_gid w) =? 502) && (argc =? 1)
        then [Strncmp None "pre" 3] else [])
  /\ execl_calls (trace (run (CmdWrapper.main argc argv) w)) = [].
Proof.
  intros Hc.
  destruct (Z.eqb_spec (C.to_int (real_gid w)) 502) as [Hg | Hg].
  - destruct (Z.eqb_spec argc 1) as [Ha | Ha].
    + rewrite (cmd_null w argc argv Hg Ha Hc). repeat split.
    + rewrite (cmd_usage w argc argv Hg Ha). repeat split.
  - rewrite (cmd_unauthorized w argc argv Hg). repeat split.
Qed.

Lemma cmd_absent_command_witness :
  command os_absent = None
  /\ outcome_of (run (CmdWrapper.main 2 ["cmd-wrapper"; "pre"]) os_absent)
     = Some (Exited 1)
  /\ outcome_of (run (CmdWrapper.main 1 ["cmd-wrapper"]) os_absent)
     = Some Fault.
Proof.
  split; [reflexivity | split].
  - exact (proj1 (cmd_absent_command os_absent 2 ["cmd-wrapper"; "pre"] eq_refl)).
  - exact (proj1 (cmd_absent_command os_absent 1 ["cmd-wrapper"] eq_refl)).
Defined.

(** *** A failed image replacement *)

Ltac in_trace H :=
  simpl in H;
  repeat (destruct H as [H | H]; [try discriminate H |]);
  try contradiction.

(** X6: whichever [execl] a run of either dispatcher attempts, if the
    operating system makes it fail with errno [e], the run goes on with
    exactly two more calls, [perror("Execl:")] under that same errno and
    [exit(0)]: nothing was attempted before it, no second program is tried
    after it, and the process ends with status 0. *)
Theorem exec_failure_reported
  (w : os) (argc : Z) (argv : list string)
  (path : string) (av : list string) (e : Z) :
  execl_errno w path av = Some e ->
  (In (Execl path av) (trace (run (CmdWrapper.main argc argv) w)) ->
   outcome_of (run (CmdWrapper.main argc argv) w) = Some (Exited 0)
   /\ errno (proc_of (run (CmdWrapper.main argc argv) w)) = e
   /\ exists before,
        trace (run (CmdWrapper.main argc argv) w)
        = before ++ [Execl path av; Perror "Execl:" e; Exit 0]
        /\ execl_calls before = [])
  /\
  (In (Execl path av) (trace (run (RsyncWrapper.main argc argv) w)) ->
   outcome_of (run (RsyncWrapper.main argc argv) w) = Some (Exited 0)
   /\ errno (proc_of (run (RsyncWrapper.main argc argv) w)) = e
   /\ exists before,
        trace (run (RsyncWrapper.main argc argv) w)
        = before ++ [Execl path av; Perror "Execl:" e; Exit 0]
        /\ execl_calls before = []).
Proof.
  intros He. split.
  - destruct (Z.eq_dec (C.to_int (real_gid w)) 502) as [Hg | Hg].
    2: { rewrite (cmd_unauthorized w argc argv Hg). intros H. in_trace H. }
    destruct (Z.eq_dec argc 1) as [Ha | Ha].
    2: { rewrite (cmd_usage w argc argv Hg Ha). intros H. in_trace H. }
    destruct (command w) as [s |] eqn:Hc.
    2: { rewrite (cmd_null w argc argv Hg Ha Hc). intros H. in_trace H. }
    destruct (Z.eq_dec (C.strncmp s "pre" 3) 0) as [Hp | Hp].
    { rewrite (cmd_pre w argc argv s Hg Ha Hc Hp).
      destruct (execl_errno w pre_script ["rsnapshot-pre.sh"]) as [e' |] eqn:He';
        intros H; in_trace H; injection H as <- <-;
        rewrite He' in He; [| discriminate].
      injection He as ->. repeat split.
      exists (prologue w ++ reescalation ++ [Strncmp (Some s) "pre" 3]).
      split; reflexivity. }
    destruct (Z.eq_dec (C.strncmp s "post" 4) 0) as [Hq | Hq].
    { rewrite (cmd_post w argc argv s Hg Ha Hc Hp Hq).
      destruct (execl_errno w post_script ["rsnapshot-post.sh"]) as [e' |] eqn:He';
        intros H; in_trace H; injection H as <- <-;
        rewrite He' in He; [| discriminate].
      injection He as ->. repeat split.
      exists (prologue w ++ reescalation
              ++ [Strncmp (Some s) "pre" 3; Strncmp (Some s) "post" 4]).
      split; reflexivity. }
    rewrite (cmd_invalid w argc argv s Hg Ha Hc Hp Hq). intros H. in_trace H.
  - destruct (Z.eq_dec (C.to_int (real_gid w)) 502) as [Hg | Hg].
    2: { rewrite (rsync_unauthorized w argc argv Hg). intros H. in_trace H. }
    destruct (Z.eq_dec argc 1) as [Ha | Ha].
    2: { rewrite (rsync_usage w argc argv Hg Ha). intros H. in_trace H. }
    rewrite (rsync_exec w argc argv Hg Ha).
    destruct (execl_errno w rsync_path RsyncWrapper.rsync_argv) as [e' |] eqn:He';
      intros H; in_trace H; injection H as <- <-;
      rewrite He' in He; [| discriminate].
    injection He as ->. repeat split.
    exists (drop (real_gid w) (real_uid w) ++ reescalation).
    split; reflexivity.
Qed.

Lemma exec_failure_reported_witness :
  execl_errno os_shell "/usr/bin/rsync" RsyncWrapper.rsync_argv = Some ENOENT
  /\ In (Execl "/usr/bin/rsync" RsyncWrapper.rsync_argv)
       (trace (run (RsyncWrapper.main 1 ["rsync-wrapper"]) os_shell))
  /\ outcome_of (run (RsyncWrapper.main 1 ["rsync-wrapper"]) os_shell)
     = Some (Exited 0).
Proof.
  assert (Hin : In (Execl "/usr/bin/rsync" RsyncWrapper.rsync_argv)
                  (trace (run (RsyncWrapper.main 1 ["rsync-wrapper"]) os_shell))).
  { vm_compute. tauto. }
  split; [reflexivity | split; [exact Hin |]].
  exact (proj1 (proj2 (exec_failure_reported os_shell 1 ["rsync-wrapper"]
                         "/usr/bin/rsync" RsyncWrapper.rsync_argv ENOENT
                         eq_refl) Hin)).
Defined.

(** *** Standard output and the exec *)

(** X7: a run of either dispatcher that attempts an image replacement
    writes nothing on standard output, before or after the attempt; what a
    failed attempt reports goes through [perror]. *)
Theorem exec_runs_are_silent (w : os) (argc : Z) (argv : list string) :
  (execl_calls (trace (run (CmdWrapper.main argc argv) w)) <> [] ->
   stdout (trace (run (CmdWrapper.main argc argv) w)) = EmptyString)
  /\
  (execl_calls (trace (run (RsyncWrapper.main argc argv) w)) <> [] ->
   stdout (trace (run (RsyncWrapper.main argc argv) w)) = EmptyString).
Proof.
  split.
  - cmd_cases w argc argv; intros H; try reflexivity;
      exfalso; apply H; reflexivity.
  - rsync_cases w argc argv; intros H; try reflexivity;
      exfalso; apply H; reflexivity.
Qed.

Lemma exec_runs_are_silent_witness :
  execl_calls (trace (run (RsyncWrapper.main 1 ["rsync-wrapper"]) os_shell)) <> []
  /\ stdout (trace (run (RsyncWrapper.main 1 ["rsync-wrapper"]) os_shell))
     = EmptyString
  /\ execl_calls (trace (run (CmdWrapper.main 1 ["cmd-wrapper"]) os_preempt)) <> []
  /\ stdout (trace (run (CmdWrapper.main 1 ["cmd-wrapper"]) os_preempt))
     = EmptyString.
Proof.
  assert (H1 : execl_calls
                 (trace (run (RsyncWrapper.main 1 ["rsync-wrapper"]) os_shell)) <> [])
    by (vm_compute; discriminate).
  assert (H2 : execl_calls
                 (trace (run (CmdWrapper.main 1 ["cmd-wrapper"]) os_preempt)) <> [])
    by (vm_compute; discriminate).
  split; [exact H1 | split; [| split; [exact H2 |]]].
  - exact (proj2 (exec_runs_are_silent os_shell 1 ["rsync-wrapper"]) H1).
  - exact (proj1 (exec_runs_are_silent os_preempt 1 ["cmd-wrapper"]) H2).
Defined.

(** *** How a run can end *)

(** X8: every run of cmd-wrapper ends, and in one of five ways: exit with
    status 1, a fault, the image replaced by the pre script, by the post
    script, or exit with status 0, the last only after a [perror] for a
    failed [execl].  Every run of rsync-wrapper ends by exit with status 1,
    by the image replaced by rsync, or by exit with status 0 after a
    [perror]. *)
Theorem run_outcomes (w : os) (argc : Z) (argv : list string) :
  (exists o,
     outcome_of (run (CmdWrapper.main argc argv) w) = Some o
     /\ (o = Exited 1
         \/ o = Fault
         \/ o = Replaced "/root/bin/rsnapshot-pre.sh" ["rsnapshot-pre.sh"]
         \/ o = Replaced "/root/bin/rsnapshot-post.sh" ["rsnapshot-post.sh"]
         \/ (o = Exited 0
             /\ exists e, In (Perror "Execl:" e)
                            (trace (run (CmdWrapper.main argc argv) w)))))
  /\
  (exists o,
     outcome_of (run (RsyncWrapper.main argc argv) w) = Some o
     /\ (o = Exited 1
         \/ o = Replaced "/usr/bin/rsync" RsyncWrapper.rsync_argv
         \/ (o = Exited 0
             /\ exists e, In (Perror "Execl:" e)
                            (trace (run (RsyncWrapper.main argc argv) w))))).
Proof.
  split.
  - cmd_cases w argc argv; eexists; (split; [reflexivity |]);
      try (now left); try (now right; left);
      try (now right; right; left); try (now right; right; right; left).
    + right; right; right; right. split; [reflexivity |].
      eexists. simpl. repeat (first [left; reflexivity | right]).
    + right; right; right; right. split; [reflexivity |].
      eexists. simpl. repeat (first [left; reflexivity | right]).
  - rsync_cases w argc argv; eexists; (split; [reflexivity |]);
      try (now left); try (now right; left).
    right; right. split; [reflexivity |].
    eexists. simpl. repeat (first [left; reflexivity | right]).
Qed.

(** *** What the dispatchers print *)

Lemma rsync_stdout (w : os) (argc : Z) (argv : list string) :
  stdout (trace (run (RsyncWrapper.main argc argv) w))
  = (if negb (C.to_int (real_gid w) =? 502)
     then msg_unauthorized
     else if negb (argc =? 1) then msg_usage_rsync else EmptyString).
Proof. rsync_cases w argc argv; reflexivity. Qed.

Lemma cmd_stdout (w : os) (argc : Z) (argv : list string) :
  stdout (trace (run (CmdWrapper.main argc argv) w))
  = (if negb (C.to_int (real_gid w) =? 502)
     then msg_unauthorized
     else if negb (argc =? 1)
          then msg_usage_cmd
          else match command w with
               | Some s =>
                   if recognised s then EmptyString
                   else ("ERROR: Invalid command: " ++ s ++ C.LF
                         ++ "Usage: COMMAND [pre|post]" ++ C.LF)%string
               | None => EmptyString
               end).
Proof.
  unfold recognised.
  destruct (Z.eqb_spec (C.to_int (real_gid w)) 502) as [Hg | Hg].
  2: { now rewrite (cmd_unauthorized w argc argv Hg). }
  destruct (Z.eqb_spec argc 1) as [Ha | Ha].
  2: { now rewrite (cmd_usage w argc argv Hg Ha). }
  destruct (command w) as [s |] eqn:Hc.
  2: { now rewrite (cmd_null w argc argv Hg Ha Hc). }
  rewrite <- strncmp_pre_eqb, <- strncmp_post_eqb.
  destruct (Z.eqb_spec (C.strncmp s "pre" 3) 0) as [Hp | Hp].
  { rewrite (cmd_pre w argc argv s Hg Ha Hc Hp).
    now destruct (execl_errno w pre_script ["rsnapshot-pre.sh"]). }
  destruct (Z.eqb_spec (C.strncmp s "post" 4) 0) as [Hq | Hq].
  { rewrite (cmd_post w argc argv s Hg Ha Hc Hp Hq).
    now destruct (execl_errno w post_script ["rsnapshot-post.sh"]). }
  rewrite (cmd_invalid w argc argv s Hg Ha Hc Hp Hq).
  cbn [negb orb trace proc_of calls prologue drop reescalation app stdout].
  rewrite sprintf_invalid, append_empty_r.
  rewrite !string_append_assoc. reflexivity.
Qed.


(** X9: the standard output of any run of rsync-wrapper and of cmd-wrapper.
    The authorization test comes first: a caller whose group does not convert
    to 502 gets the not-authorized line whatever the arguments are; an
    authorized caller with an argument count other than 1 gets the usage line
    of the program; otherwise rsync-wrapper prints nothing, and cmd-wrapper
    prints only for a present command that begins with neither selector, the
    error line naming it and the second usage line. *)
Theorem dispatcher_stdout (w : os) (argc : Z) (argv : list string) :
  stdout (trace (run (RsyncWrapper.main argc argv) w))
  = (if negb (C.to_int (real_gid w) =? 502)
     then ("User Not Authorized! Exiting..." ++ C.LF)%string
     else if negb (argc =? 1)
          then ("Usage: rsync-wrapper" ++ C.LF)%string
          else EmptyString)
  /\ stdout (trace (run (CmdWrapper.main argc argv) w))
     = (if negb (C.to_int (real_gid w) =? 502)
        then ("User Not Authorized! Exiting..." ++ C.LF)%string
        else if negb (argc =? 1)
             then ("Usage: cmd-wrapper [pre|post]" ++ C.LF)%string
             else match command w with
                  | Some s =>
                      if recognised s then EmptyString
                      else ("ERROR: Invalid command: " ++ s ++ C.LF
                            ++ "Usage: COMMAND [pre|post]" ++ C.LF)%string
                  | None => EmptyString
                  end).
Proof. split; [apply rsync_stdout | apply cmd_stdout]. Qed.

(** *** What a run does not depend on *)

(** X10: of the environment, cmd-wrapper uses the value of
    SSH_ORIGINAL_COMMAND and nothing else: under two environments that give
    this variable the same value (or both leave it out), the runs are the
    same, call for call and with the same outcome. *)
Theorem cmd_uses_command_only
  (w : os) (env1 env2 : list (string * string)) (argc : Z) (argv : list string) :
  C.lookup "SSH_ORIGINAL_COMMAND" env1 = C.lookup "SSH_ORIGINAL_COMMAND" env2 ->
  run (CmdWrapper.main argc argv) (with_environ w env1)
  = run (CmdWrapper.main argc argv) (with_environ w env2).
Proof.
  intros H. unfold_main.
  cbn [with_environ real_gid real_uid environ execl_errno].
  rewrite H. same_run.
Qed.

Lemma cmd_uses_command_only_witness :
  C.lookup "SSH_ORIGINAL_COMMAND" env_crowded
  = C.lookup "SSH_ORIGINAL_COMMAND" (environ os_preempt)
  /\ run (CmdWrapper.main 1 ["cmd-wrapper"]) (with_environ os_preempt env_crowded)
     = run (CmdWrapper.main 1 ["cmd-wrapper"])
         (with_environ os_preempt (environ os_preempt)).
Proof.
  split; [reflexivity |].
  exact (cmd_uses_command_only os_preempt env_crowded (environ os_preempt)
           1 ["cmd-wrapper"] eq_refl).
Defined.

(** The outcome and the comparisons of any run, as decided by the group,
    the argument count, the command and the answer to [execl]. *)
Lemma cmd_outcome (w : os) (argc : Z) (argv : list string) :
  outcome_of (run (CmdWrapper.main argc argv) w)
  = Some (if (C.to_int (real_gid w) =? 502) && (argc =? 1)
          then match command w with
               | Some s =>
                   if C.strncmp s "pre" 3 =? 0
                   then match execl_errno w pre_script ["rsnapshot-pre.sh"] with
                        | None => Replaced pre_script ["rsnapshot-pre.sh"]
                        | Some _ => Exited 0
                        end
                   else if C.strncmp s "post" 4 =? 0
                        then match execl_errno w post_script ["rsnapshot-post.sh"] with
                             | None => Replaced post_script ["rsnapshot-post.sh"]
                             | Some _ => Exited 0
                             end
                        else Exited 1
               | None => Fault
               end
          else Exited 1).
Proof. cmd_cases w argc argv; reflexivity. Qed.

Lemma cmd_strncmp_calls (w : os) (argc : Z) (argv : list string) :
  strncmp_calls (trace (run (CmdWrapper.main argc argv) w))
  = if (C.to_int (real_gid w) =? 502) && (argc =? 1)
    then match command w with
         | Some s =>
             if C.strncmp s "pre" 3 =? 0
             then [Strncmp (Some s) "pre" 3]
             else [Strncmp (Some s) "pre" 3; Strncmp (Some s) "post" 4]
         | None => [Strncmp None "pre" 3]
         end
    else [].
Proof. cmd_cases w argc argv; reflexivity. Qed.

Lemma rsync_outcome (w : os) (argc : Z) (argv : list string) :
  outcome_of (run (RsyncWrapper.main argc argv) w)
  = Some (if (C.to_int (real_gid w) =? 502) && (argc =? 1)
          then match execl_errno w rsync_path RsyncWrapper.rsync_argv with
               | None => Replaced rsync_path RsyncWrapper.rsync_argv
               | Some _ => Exited 0
               end
          else Exited 1).
Proof. rsync_cases w argc argv; reflexivity. Qed.

(** X11: the real user id plays no part in the decision of either
    dispatcher: it is only passed to [seteuid] in the drop.  For any other
    real user id the run has the same outcome, attempts the same image
    replacement, makes the same comparisons and prints the same text. *)
Theorem real_uid_not_consulted (w : os) (u : Z) (argc : Z) (argv : list string) :
  (outcome_of (run (CmdWrapper.main argc argv) (with_real_uid w u))
   = outcome_of (run (CmdWrapper.main argc argv) w)
   /\ execl_calls (trace (run (CmdWrapper.main argc argv) (with_real_uid w u)))
      = execl_calls (trace (run (CmdWrapper.main argc argv) w))
   /\ strncmp_calls (trace (run (CmdWrapper.main argc argv) (with_real_uid w u)))
      = strncmp_calls (trace (run (CmdWrapper.main argc argv) w))
   /\ stdout (trace (run (CmdWrapper.main argc argv) (with_real_uid w u)))
      = stdout (trace (run (CmdWrapper.main argc argv) w)))
  /\
  (outcome_of (run (RsyncWrapper.main argc argv) (with_real_uid w u))
   = outcome_of (run (RsyncWrapper.main argc argv) w)
   /\ execl_calls (trace (run (RsyncWrapper.main argc argv) (with_real_uid w u)))
      = execl_calls (trace (run (RsyncWrapper.main argc argv) w))
   /\ stdout (trace (run (RsyncWrapper.main argc argv) (with_real_uid w u)))
      = stdout (trace (run (RsyncWrapper.main argc argv) w))).
Proof.
  split; [split; [| split; [| split]] | split; [| split]].
  - now rewrite !cmd_outcome.
  - now rewrite !cmd_execl_calls.
  - now rewrite !cmd_strncmp_calls.
  - now rewrite !cmd_stdout.
  - now rewrite !rsync_outcome.
  - now rewrite !rsync_execl_calls.
  - now rewrite !rsync_stdout.
Qed.

(** *** The image replacement comes last *)

(** X12: in every run of either dispatcher that attempts an image
    replacement, the calls made before the [execl] include the whole
    privilege sequence, the two calls of the drop under the real ids and then
    setegid(0), seteuid(0), setgid(0), setuid(0); no privilege-changing call
    is left for after it. *)
Theorem exec_after_reescalation (w : os) (argc : Z) (argv : list string) :
  (execl_calls (trace (run (CmdWrapper.main argc argv) w)) <> [] ->
   setid_calls (until_execl (trace (run (CmdWrapper.main argc argv) w)))
   = [Setegid (real_gid w); Seteuid (real_uid w);
      Setegid 0; Seteuid 0; Setgid 0; Setuid 0]
   /\ setid_calls (trace (run (CmdWrapper.main argc argv) w))
      = setid_calls (until_execl (trace (run (CmdWrapper.main argc argv) w))))
  /\
  (execl_calls (trace (run (RsyncWrapper.main argc argv) w)) <> [] ->
   setid_calls (until_execl (trace (run (RsyncWrapper.main argc argv) w)))
   = [Setegid (real_gid w); Seteuid (real_uid w);
      Setegid 0; Seteuid 0; Setgid 0; Setuid 0]
   /\ setid_calls (trace (run (RsyncWrapper.main argc argv) w))
      = setid_calls (until_execl (trace (run (RsyncWrapper.main argc argv) w)))).
Proof.
  split.
  - cmd_cases w argc argv; intros H; try (split; reflexivity);
      exfalso; apply H; reflexivity.
  - rsync_cases w argc argv; intros H; try (split; reflexivity);
      exfalso; apply H; reflexivity.
Qed.

Lemma exec_after_reescalation_witness :
  execl_calls (trace (run (CmdWrapper.main 1 ["cmd-wrapper"]) os_postfix)) <> []
  /\ setid_calls
       (until_execl (trace (run (CmdWrapper.main 1 ["cmd-wrapper"]) os_postfix)))
     = [Setegid 502; Seteuid 1001; Setegid 0; Seteuid 0; Setgid 0; Setuid 0]
  /\ execl_calls (trace (run (RsyncWrapper.main 1 ["rsync-wrapper"]) os_shell)) <> []
  /\ setid_calls
       (until_execl (trace (run (RsyncWrapper.main 1 ["rsync-wrapper"]) os_shell)))
     = [Setegid 502; Seteuid 1001; Setegid 0; Seteuid 0; Setgid 0; Setuid 0].
Proof.
  assert (H1 : execl_calls
                 (trace (run (CmdWrapper.main 1 ["cmd-wrapper"]) os_postfix)) <> [])
    by (vm_compute; discriminate).
  assert (H2 : execl_calls
                 (trace (run (RsyncWrapper.main 1 ["rsync-wrapper"]) os_shell)) <> [])
    by (vm_compute; discriminate).
  split; [exact H1 | split; [| split; [exact H2 |]]].
  - exact (proj1 (proj1 (exec_after_reescalation os_postfix 1 ["cmd-wrapper"]) H1)).
  - exact (proj1 (proj2 (exec_after_reescalation os_shell 1 ["rsync-wrapper"]) H2)).
Defined.
